(** * SeisFlows workflow core: [seisflows3.tools.msg], [seisflows3.workflow.base]
      and [seisflows.workflow.migration]

    A shallow embedding of the message formatters of [tools/msg.py], of the
    flow executor [Base.main] / [Base.check_stop_resume_cond] /
    [Base.checkpoint] of [workflow/base.py] and of [Migration.main] of
    [workflow/migration.py], followed by the properties of the workflow
    specification that concern them.

    Python values are modelled as follows: [str] as [string] (ASCII text),
    [int] as [Z], tuples and lists as [list], [None]-or-value as [option],
    exceptions as the type [exn], and the effects of the executor (logger
    records, calls of flow functions, calls of [save()]) as a trace of
    [event]s next to the state the flow functions act on. *)

From Stdlib Require Import List String Ascii ZArith Lia Bool.
Import ListNotations.

Local Open Scope string_scope.
Local Open Scope Z_scope.

(** ** Python exceptions and results *)

Inductive exn : Type :=
| AttributeError                 (* attribute lookup failed *)
| ValueError                     (* list.index miss, invalid width *)
| IndexError                     (* tuple index out of range *)
| RecursionError                 (* maximum recursion depth exceeded *)
| SystemExit (code : Z)          (* sys.exit(code) *)
| Exception (what : string).     (* anything a flow function raises *)

Inductive res (A : Type) : Type :=
| Ret (a : A)
| Raise (e : exn).

Arguments Ret {A} a.
Arguments Raise {A} e.

(** ** [seisflows3/tools/msg.py] *)

Module Msg.

(** The newline character. *)
Definition nl : string := String "010"%char EmptyString.

(** Python [s * n] on a [str] and a non-negative count. *)
Fixpoint repeat_str (s : string) (n : nat) : string :=
  match n with
  | O => EmptyString
  | S k => s ++ repeat_str s k
  end.

(** Python [s * n] for any [int]: a negative count gives the empty string. *)
Definition str_mul (s : string) (n : Z) : string := repeat_str s (Z.to_nat n).

(** The format specification [{:^w}] on a [str]: the value centred in a
    field of [w] columns, the smaller half of the padding on the left;
    a value at least as long as the field is left as it is. *)
Definition center (s : string) (w : nat) : string :=
  let pad := (w - String.length s)%nat in
  let left := Nat.div pad 2 in
  repeat_str " " left ++ s ++ repeat_str " " (pad - left)%nat.

(** [str.upper] on ASCII text. *)
Definition upper_char (c : ascii) : ascii :=
  let n := nat_of_ascii c in
  if andb (Nat.leb 97 n) (Nat.leb n 122) then ascii_of_nat (n - 32) else c.

Fixpoint upper (s : string) : string :=
  match s with
  | EmptyString => EmptyString
  | String c r => String (upper_char c) (upper r)
  end.

(** [sep.join(items)]. *)
Definition join (sep : string) (items : list string) : string :=
  String.concat sep items.

Definition mjr (val : string) : string :=
  nl ++ repeat_str "=" 80 ++ nl ++ center val 80 ++ nl
     ++ repeat_str "=" 80 ++ nl.

Definition mnr (val : string) : string :=
  nl ++ repeat_str "+" 80 ++ nl ++ center val 80 ++ nl
     ++ repeat_str "+" 80 ++ nl.

Definition sub (val : string) : string :=
  val ++ nl ++ repeat_str "-" 80 ++ nl.

(** [if items:] holds for a list that is given and not empty. *)
Definition items_given (items : option (list string)) : bool :=
  match items with
  | Some (_ :: _) => true
  | _ => false
  end.

Section Cli.

(** [textwrap.wrap(text, width=w, break_long_words=False)] of Python's
    standard library, for a positive width.  It is not part of the
    repository; [cli] is modelled for any such function.  For a width
    that is not positive [textwrap.wrap] raises [ValueError], whatever
    the text: this is written out in [cli]. *)
Variable wrap : string -> Z -> list string.

Definition cli (text : string) (items : option (list string))
           (wraplen : Z) (header : option string)
           (border : option string) (hchar : string) : res string :=
  if wraplen <=? 0 then Raise ValueError else
  (* Start with a newline to space from command line arg *)
  let output_str := nl in
  (* Add top border *)
  let output_str :=
    match border with
    | Some b => output_str ++ str_mul b wraplen ++ nl
    | None => output_str
    end in
  (* Add header below top border and a line below that *)
  let output_str :=
    match header with
    | Some h =>
        output_str
          ++ center (upper h) (Z.to_nat wraplen) ++ nl
          ++ center (repeat_str hchar (String.length h))
                    (Z.to_nat wraplen) ++ nl
    | None => output_str
    end in
  (* Format the actual input string with a text wrap *)
  let output_str := output_str ++ join nl (wrap text wraplen) in
  (* Add list items in order of list *)
  let output_str :=
    if items_given items
    then output_str ++ nl ++ nl
           ++ join nl (match items with Some l => l | None => [] end)
    else output_str in
  (* Add bottom border *)
  let output_str :=
    match border with
    | Some b => output_str ++ nl ++ str_mul b wraplen
    | None => output_str
    end in
  (* Final newline to space from next cli *)
  Ret (output_str ++ nl).

End Cli.

(** [s.split(sep)] for a separator of one character: the pieces of [s]
    between the occurrences of [sep], of which there is always one more
    than there are occurrences. *)
Fixpoint split (s : string) (sep : ascii) : list string :=
  match s with
  | EmptyString => [EmptyString]
  | String c r =>
      if Ascii.eqb c sep then EmptyString :: split r sep
      else match split r sep with
           | piece :: pieces => String c piece :: pieces
           | [] => [String c EmptyString]
           end
  end.

(** [str(cls)] for a class whose module path and name make up the dotted
    [name]. *)
Definition class_repr (name : string) : string :=
  "<class '" ++ name ++ "'>".

(** [split_cls], on the string [str(cls)].  Unpacking a list into three
    or four names raises [ValueError] unless it has as many elements. *)
Definition split_cls (cls : string) : res (string * string) :=
  match split cls "'" with
  | [type_; str_; brkt] =>
      match split str_ "." with
      | [sf3; module; fid; clsname] => Ret (module, clsname)
      | _ => Raise ValueError
      end
  | _ => Raise ValueError
  end.

Definition check (cls : string) : res string :=
  match split_cls cls with
  | Ret (module, clsname) =>
      Ret ("check paths/pars module: " ++ module ++ "." ++ clsname)
  | Raise e => Raise e
  end.

Definition setup (cls : string) : res string :=
  match split_cls cls with
  | Ret (module, clsname) =>
      Ret ("setting up module: " ++ module ++ "." ++ clsname)
  | Raise e => Raise e
  end.

Definition whoami (cls append prepend : string) : res string :=
  match split_cls cls with
  | Ret (module, clsname) =>
      Ret (prepend ++ module ++ "." ++ clsname ++ append)
  | Raise e => Raise e
  end.

(** Whether the character [c] occurs in [s], and how often. *)
Fixpoint has_char (c : ascii) (s : string) : bool :=
  match s with
  | EmptyString => false
  | String a r => Ascii.eqb a c || has_char c r
  end.

Fixpoint count_char (c : ascii) (s : string) : nat :=
  match s with
  | EmptyString => O
  | String a r => if Ascii.eqb a c then S (count_char c r) else count_char c r
  end.

End Msg.

(** ** Python sequences *)

Module Py.

(** An index or slice bound [i] of a sequence of length [len], as Python
    normalises it for a slice: a negative bound counts from the end, and
    the result is clamped to [0 .. len]. *)
Definition slice_bound (len i : Z) : Z :=
  if i <? 0 then Z.max 0 (i + len) else Z.min i len.

(** [l[start:stop]]. *)
Definition slice {A : Type} (l : list A) (start stop : Z) : list A :=
  let len := Z.of_nat (List.length l) in
  let lo := slice_bound len start in
  let hi := slice_bound len stop in
  firstn (Z.to_nat (hi - lo)) (skipn (Z.to_nat lo) l).

(** [l[i]]: a negative index counts from the end, an index out of range
    raises [IndexError]. *)
Definition getitem {A : Type} (l : list A) (i : Z) : res A :=
  let len := Z.of_nat (List.length l) in
  let j := if i <? 0 then i + len else i in
  if (j <? 0) || (len <=? j) then Raise IndexError
  else match nth_error l (Z.to_nat j) with
       | Some a => Ret a
       | None => Raise IndexError
       end.

(** [l.index(x)] on a list of [str]: the first position of [x], or
    [ValueError] when [x] is not in the list. *)
Fixpoint index (l : list string) (x : string) : res Z :=
  match l with
  | [] => Raise ValueError
  | y :: r =>
      if String.eqb y x then Ret 0
      else match index r x with
           | Ret i => Ret (i + 1)
           | Raise e => Raise e
           end
  end.

(** Truth value of a parameter that is [None] or a [str]. *)
Definition truthy (v : option string) : bool :=
  match v with
  | Some s => negb (String.eqb s EmptyString)
  | None => false
  end.

(** [f"{v}"] for a parameter that is [None] or a [str]. *)
Definition fmt (v : option string) : string :=
  match v with
  | Some s => s
  | None => "None"
  end.

End Py.

(** ** [seisflows3/workflow/base.py] *)

(** What the executor itself does, in the order it does it. *)
Inductive event : Type :=
| Call (name : string)           (* func() on a flow function *)
| LogInfo (message : string)     (* self.logger.info(...) *)
| LogWarning (message : string)  (* self.logger.warning(...) *)
| Save.                          (* save(), through Base.checkpoint *)

(** The names of the flow functions called, in call order. *)
Fixpoint calls_of (tr : list event) : list string :=
  match tr with
  | [] => []
  | Call n :: r => n :: calls_of r
  | _ :: r => calls_of r
  end.

(** The number of checkpoints written. *)
Fixpoint saves_of (tr : list event) : nat :=
  match tr with
  | [] => O
  | Save :: r => S (saves_of r)
  | _ :: r => saves_of r
  end.

(** Whether every call of a flow function is followed by a checkpoint
    before the next call (or the end of the trace). *)
Fixpoint checkpointed_after_each_call (tr : list event) : bool :=
  match tr with
  | [] => true
  | Call _ :: r =>
      (fix saved_first (l : list event) : bool :=
         match l with
         | Save :: _ => true
         | Call _ :: _ => false
         | _ :: l' => saved_first l'
         | [] => false
         end) r && checkpointed_after_each_call r
  | _ :: r => checkpointed_after_each_call r
  end.

(** The entries of the parameter registry [PAR] the executor reads. *)
Record Params : Type := mkParams {
  RESUME_FROM : option string;
  STOP_AFTER : option string
}.

Module Base.

Section Executor.

(** Everything the flow functions and [save()] act on: the working
    directory with the checkpoint on disk, the solver scratch, ... *)
Variable World : Type.

(** A computation of the executor: from a world, a result or an
    exception, the world left behind and the events emitted. *)
Definition M (A : Type) : Type := World -> res A * World * list event.

Definition ret {A : Type} (a : A) : M A := fun w => (Ret a, w, []).

Definition raise {A : Type} (e : exn) : M A := fun w => (Raise e, w, []).

Definition bind {A B : Type} (m : M A) (k : A -> M B) : M B :=
  fun w =>
    match m w with
    | (Ret a, w1, tr1) =>
        match k a w1 with
        | (r, w2, tr2) => (r, w2, (tr1 ++ tr2)%list)
        end
    | (Raise e, w1, tr1) => (Raise e, w1, tr1)
    end.

Definition emit (ev : event) : M unit := fun w => (Ret tt, w, [ev]).

Definition lift {A : Type} (r : res A) : M A := fun w => (r, w, []).

(** [try: body except ValueError: handler]. *)
Definition try_except_ValueError {A : Type} (body handler : M A) : M A :=
  fun w =>
    match body w with
    | (Raise ValueError, w1, tr1) =>
        match handler w1 with
        | (r, w2, tr2) => (r, w2, (tr1 ++ tr2)%list)
        end
    | other => other
    end.

(** A flow function: a bound method with its [__name__]; calling it
    returns [None] or raises, and leaves a world behind either way. *)
Record step : Type := mkStep {
  name : string;
  action : World -> res unit * World
}.

(** The objects whose [__name__] is looked up. *)
Inductive pyobj : Type :=
| PyFunction (f : step)
| PyStr (s : string).

(** [o.__name__]: a function has a name, an instance of [str] has no such
    attribute. *)
Definition getattr_name (o : pyobj) : res string :=
  match o with
  | PyFunction f => Ret (name f)
  | PyStr _ => Raise AttributeError
  end.

(** [[_.__name__ for _ in xs]]. *)
Fixpoint names_of (xs : list pyobj) : res (list string) :=
  match xs with
  | [] => Ret []
  | o :: r =>
      match getattr_name o with
      | Raise e => Raise e
      | Ret n =>
          match names_of r with
          | Raise e => Raise e
          | Ret ns => Ret (n :: ns)
          end
      end
  end.

Definition logger_info (message : string) : M unit := emit (LogInfo message).

Definition logger_warning (message : string) : M unit :=
  emit (LogWarning message).

Definition sys_exit {A : Type} (code : Z) : M A := raise (SystemExit code).

(** [func()]. *)
Definition call (func : step) : M unit :=
  fun w =>
    match action func w with
    | (r, w1) => (r, w1, [Call (name func)])
    end.

(** [textwrap.wrap], see [Msg.cli]. *)
Variable wrap : string -> Z -> list string.

(** [seisflows3.config.save], which is not among the sources: whatever
    it writes, it is a function of the world. *)
Variable save : World -> World.

(** [self.check_stop_after], which [Base] does not define: a subclass
    has to provide it. *)
Variable check_stop_after : step -> M unit.

(** The module-level registry [PAR]: it is filled from the parameter
    file before the workflow starts, and read here. *)
Variable PAR : Params.

Local Notation "x <- c1 ;; c2" := (bind c1 (fun x => c2))
  (at level 61, c1 at next level, right associativity).
Local Notation "c1 ;; c2" := (bind c1 (fun _ => c2))
  (at level 61, right associativity).

Definition unknown_name_message (value parameter : string) : string :=
  value ++ " does not correspond to any FLOW "
        ++ "functions. Please check that PAR." ++ parameter ++ " "
        ++ "matches one of the functions listed out in "
        ++ "`seisflows print flow`.".

Definition check_stop_resume_cond (flow : list step) : M (Z * Z) :=
  fxnames <- lift (names_of (map PyFunction flow)) ;;
  (* Default values which dictate that flow will execute in its entirety *)
  let start_idx := 0 in
  let stop_idx := -1 in
  (* Overwrite start if RESUME_FROM provided, exit condition if it
     it doesn't match list of flow names *)
  start_idx <-
    (if Py.truthy (RESUME_FROM PAR) then
       try_except_ValueError
         (names <- lift (names_of (map PyStr fxnames)) ;;
          start_idx <- lift (Py.index names (Py.fmt (RESUME_FROM PAR))) ;;
          func <- lift (Py.getitem flow start_idx) ;;
          fx_name <- lift (getattr_name (PyFunction func)) ;;
          logger_info
            (Msg.mnr ("WORKFLOW WILL RESUME FROM FUNC: '" ++ fx_name ++ "'")) ;;
          ret start_idx)
         (message <- lift
            (Msg.cli wrap
               (unknown_name_message (Py.fmt (RESUME_FROM PAR)) "RESUME_FROM")
               None 80 (Some "error") (Some "=") "/") ;;
          logger_info message ;;
          sys_exit (-1))
     else ret start_idx) ;;
  (* Overwrite start if STOP_AFTER provided, exit condition if it
     it doesn't match list of flow names *)
  stop_idx <-
    (if Py.truthy (STOP_AFTER PAR) then
       try_except_ValueError
         (names <- lift (names_of (map PyStr fxnames)) ;;
          stop_idx <- lift (Py.index names (Py.fmt (STOP_AFTER PAR))) ;;
          (* !!! Increment to stop AFTER, not before *)
          let stop_idx := stop_idx + 1 in
          func <- lift (Py.getitem flow stop_idx) ;;
          fx_name <- lift (getattr_name (PyFunction func)) ;;
          logger_info
            (Msg.mnr ("WORKFLOW WILL STOP AFTER FUNC: '" ++ fx_name ++ "'")) ;;
          ret stop_idx)
         (message <- lift
            (Msg.cli wrap
               (unknown_name_message (Py.fmt (STOP_AFTER PAR)) "STOP_AFTER")
               None 80 (Some "error") (Some "=") "/") ;;
          logger_info message ;;
          sys_exit (-1))
     else ret stop_idx) ;;
  ret (start_idx, stop_idx).

(** [Base.checkpoint]. *)
Definition checkpoint : M unit :=
  fun w => (Ret tt, save w, [Save]).

(** The [for func in flow[start:stop]] loop of [main]: [funcs] is the
    slice, evaluated once when the loop starts, [cursor] the local
    variables [(start, stop)], which the loop body assigns and the loop
    hands back. *)
Fixpoint flow_loop (funcs : list step) (cursor : Z * Z) : M (Z * Z) :=
  match funcs with
  | [] => ret cursor
  | func :: rest =>
      call func ;;
      (* Allow User to stop a currently executing workflow mid-FLOW *)
      (if Py.truthy (STOP_AFTER PAR) then check_stop_after func
       else ret tt) ;;
      (* If an inversion-like workflow is run, FLOW will be executed
         repeatedly, we then need to reset flow for subsequent iterations *)
      let cursor := (0, -1) in
      flow_loop rest cursor
  end.

Definition not_executable_warning : string :=
  "The current definition of workflow.main() will "
    ++ "NOT execute, it must be overwritten by a "
    ++ "subclass".

(** [Base.main], with the tuple [flow] that a subclass puts in place of
    the placeholder [(self.func1, self.func2, self.funcN)].  The result
    is [Some flow] for [return flow] and [None] at the end of the body. *)
Definition main (flow : list step) (return_flow : bool)
  : M (option (list step)) :=
  logger_warning not_executable_warning ;;
  (* REQUIRED: CLI command `seisflows print flow` needs this for output *)
  if return_flow then ret (Some flow) else
  cursor <- check_stop_resume_cond flow ;;
  logger_info (Msg.mjr "BEGINNING EXAMPLE WORKFLOW") ;;
  (* Iterate through the FLOW to step through workflow.main() *)
  flow_loop (Py.slice flow (fst cursor) (snd cursor)) cursor ;;
  logger_info (Msg.mjr "FINISHED EXAMPLE WORKFLOW") ;;
  ret None.

(** The flow functions of [funcs] run one after the other from [w], with
    nothing in between: the result of the first that raises, or [Ret tt]
    after the last, and the world left behind. *)
Fixpoint run_steps (funcs : list step) (w : World) : res unit * World :=
  match funcs with
  | [] => (Ret tt, w)
  | func :: rest =>
      match action func w with
      | (Ret _, w1) => run_steps rest w1
      | (Raise e, w1) => (Raise e, w1)
      end
  end.

End Executor.

Arguments ret {World A} a.
Arguments raise {World A} e.
Arguments bind {World A B} m k.
Arguments emit {World} ev.
Arguments lift {World A} r.
Arguments call {World} func.
Arguments name {World} s.
Arguments action {World} s.
Arguments mkStep {World} name action.

End Base.

(** ** [seisflows/workflow/migration.py] *)

Module Migration.

Section Workflow.

Variable World : Type.

(** The bodies of the four flow functions: they hand work to the system,
    solver and postprocess modules, which are not among the sources. *)
Variable evaluate_initial_misfit_body : World -> res unit * World.
Variable evaluate_gradient_body : World -> res unit * World.
Variable process_kernels_body : World -> res unit * World.
Variable scale_gradient_body : World -> res unit * World.

Definition evaluate_initial_misfit : Base.step World :=
  Base.mkStep "evaluate_initial_misfit" evaluate_initial_misfit_body.

Definition evaluate_gradient : Base.step World :=
  Base.mkStep "evaluate_gradient" evaluate_gradient_body.

Definition process_kernels : Base.step World :=
  Base.mkStep "process_kernels" process_kernels_body.

Definition scale_gradient : Base.step World :=
  Base.mkStep "scale_gradient" scale_gradient_body.

(** [Migration.main] on an instance of [Migration]: [self.main] is
    [Migration.main] again.  [frames] is the number of frames the
    interpreter still grants (its recursion limit); a call that finds
    none raises [RecursionError].  The method has no [return], so it
    returns [None]. *)
Fixpoint main (frames : nat) (flow : option (list (Base.step World)))
         (return_flow : bool) : Base.M World unit :=
  match frames with
  | O => Base.raise RecursionError
  | S frames' =>
      let flow := [evaluate_initial_misfit; evaluate_gradient;
                   process_kernels; scale_gradient] in
      Base.bind (main frames' (Some flow) return_flow)
                (fun _ => Base.ret tt)
  end.

End Workflow.

End Migration.

(** ** Concrete flows, used to evaluate the executor *)

(** The names of the flow functions that [Base.run_steps] calls: all of
    [funcs] up to and including the first that raises. *)
Fixpoint invoked {World : Type} (funcs : list (Base.step World)) (w : World)
  : list string :=
  match funcs with
  | [] => []
  | func :: rest =>
      Base.name func ::
        match Base.action func w with
        | (Ret _, w1) => invoked rest w1
        | (Raise _, _) => []
        end
  end.

Module Scenario.

(** The checkpoint records on disk, newest first; none on a first run. *)
Definition World : Type := list string.

(** A [save()] that adds one record. *)
Definition save (w : World) : World := "checkpoint" :: w.

(** What [textwrap.wrap] gives for a text of one word (without hyphens):
    that word on a line of its own, and no line for the empty text. *)
Definition wrap (text : string) (width : Z) : list string :=
  match text with
  | EmptyString => []
  | _ => [text]
  end.

(** [Base] has no attribute [check_stop_after]. *)
Definition check_stop_after (func : Base.step World) : Base.M World unit :=
  Base.raise AttributeError.

(** A flow function that returns without touching the checkpoint. *)
Definition returns (n : string) : Base.step World :=
  Base.mkStep n (fun w => (Ret tt, w)).

(** A flow function that raises without touching the checkpoint. *)
Definition raises (n : string) : Base.step World :=
  Base.mkStep n (fun w => (Raise (Exception (n ++ " failed")), w)).

Definition flow_ABC : list (Base.step World) :=
  [returns "A"; returns "B"; returns "C"].

Definition flow_A_raises : list (Base.step World) :=
  [raises "A"; returns "B"; returns "C"].

Definition unset : Params := mkParams None None.

Definition resume_from (s : string) : Params := mkParams (Some s) None.

Definition stop_after (s : string) : Params := mkParams None (Some s).

Definition main (PAR : Params) (flow : list (Base.step World))
           (return_flow : bool) : Base.M World (option (list (Base.step World))) :=
  Base.main World wrap check_stop_after PAR flow return_flow.

End Scenario.

(** * Properties *)

(** ** Strings and sequences *)

Lemma append_assoc_str (a b c : string) : (a ++ b) ++ c = a ++ (b ++ c).
Proof.
  induction a as [|ch a IH]; simpl; [reflexivity|].
  now rewrite IH.
Qed.

Lemma slice_default {A : Type} (l : list A) :
  Py.slice l 0 (-1) = removelast l.
Proof.
  unfold Py.slice, Py.slice_bound.
  change (0 <? 0) with false. change (-1 <? 0) with true. cbv iota.
  rewrite removelast_firstn_len.
  replace (Z.to_nat (Z.min 0 (Z.of_nat (List.length l)))) with O by lia.
  simpl skipn. f_equal. lia.
Qed.

(** ** The executor *)

Section ExecutorFacts.

Variable World : Type.
Variable wrap : string -> Z -> list string.
Variable check_stop_after : Base.step World -> Base.M World unit.

Lemma names_of_functions (flow : list (Base.step World)) :
  Base.names_of World (map (Base.PyFunction World) flow)
  = Ret (map Base.name flow).
Proof.
  induction flow as [|f flow IH]; simpl; [reflexivity|].
  now rewrite IH.
Qed.

Lemma names_of_strs (l : list string) :
  Base.names_of World (map (Base.PyStr World) l)
  = match l with [] => Ret [] | _ :: _ => Raise AttributeError end.
Proof. destruct l; reflexivity. Qed.

(** With neither parameter set the cursor is the default one, and
    resolving it has no effect. *)
Lemma resolve_unset (PAR : Params) (flow : list (Base.step World)) (w : World) :
  Py.truthy (RESUME_FROM PAR) = false ->
  Py.truthy (STOP_AFTER PAR) = false ->
  Base.check_stop_resume_cond World wrap PAR flow w = (Ret (0, -1), w, []).
Proof.
  intros Hr Hs. unfold Base.check_stop_resume_cond, Base.bind, Base.lift.
  rewrite names_of_functions, Hr, Hs. reflexivity.
Qed.

(** With a parameter set and a flow that is not empty, the second
    [__name__] lookup, on a [str], raises before anything is compared. *)
Lemma resolve_set_nonempty (PAR : Params) (flow : list (Base.step World))
      (w : World) :
  flow <> [] ->
  Py.truthy (RESUME_FROM PAR) || Py.truthy (STOP_AFTER PAR) = true ->
  Base.check_stop_resume_cond World wrap PAR flow w
  = (Raise AttributeError, w, []).
Proof.
  intros Hne Hset. destruct flow as [|f flow]; [congruence|].
  unfold Base.check_stop_resume_cond, Base.bind, Base.lift,
    Base.try_except_ValueError.
  rewrite names_of_functions.
  destruct (Py.truthy (RESUME_FROM PAR)) eqn:Hr.
  - reflexivity.
  - simpl in Hset. rewrite Hset. reflexivity.
Qed.

(** With a parameter set and the empty flow, [index] misses and the
    handler logs the error and exits. *)
Lemma resolve_set_empty (PAR : Params) (w : World) :
  Py.truthy (RESUME_FROM PAR) || Py.truthy (STOP_AFTER PAR) = true ->
  exists message,
    Base.check_stop_resume_cond World wrap PAR [] w
    = (Raise (SystemExit (-1)), w, [LogInfo message]).
Proof.
  intros Hset.
  unfold Base.check_stop_resume_cond, Base.bind, Base.lift,
    Base.try_except_ValueError.
  destruct (Py.truthy (RESUME_FROM PAR)) eqn:Hr.
  - eexists. cbn -[Msg.cli Base.unknown_name_message].
    unfold Msg.cli. change (80 <=? 0) with false. cbv iota.
    reflexivity.
  - simpl in Hset. rewrite Hset. eexists.
    cbn -[Msg.cli Base.unknown_name_message].
    unfold Msg.cli. change (80 <=? 0) with false. cbv iota.
    reflexivity.
Qed.

Lemma resolve_returns (PAR : Params) (flow : list (Base.step World))
      (w : World) (cursor : Z * Z) :
  fst (fst (Base.check_stop_resume_cond World wrap PAR flow w)) = Ret cursor ->
  Py.truthy (RESUME_FROM PAR) = false /\ Py.truthy (STOP_AFTER PAR) = false
  /\ cursor = (0, -1).
Proof.
  intros H.
  destruct (Py.truthy (RESUME_FROM PAR) || Py.truthy (STOP_AFTER PAR)) eqn:Hset.
  - destruct flow as [|f flow].
    + destruct (resolve_set_empty PAR w Hset) as [m Hm].
      rewrite Hm in H. discriminate H.
    + rewrite resolve_set_nonempty in H by (assumption || discriminate).
      discriminate H.
  - apply orb_false_elim in Hset. destruct Hset as [Hr Hs].
    rewrite (resolve_unset PAR flow w Hr Hs) in H. simpl in H.
    repeat split; congruence.
Qed.

(** The loop of [main] while [PAR.STOP_AFTER] is not set: the flow
    functions run back to back, and the cursor is reset once one ran. *)
Lemma flow_loop_unset (PAR : Params) (funcs : list (Base.step World)) :
  Py.truthy (STOP_AFTER PAR) = false ->
  forall (cursor : Z * Z) (w : World),
    Base.flow_loop World check_stop_after PAR funcs cursor w
    = (match fst (Base.run_steps World funcs w) with
       | Ret _ => Ret (match funcs with [] => cursor | _ :: _ => (0, -1) end)
       | Raise e => Raise e
       end,
       snd (Base.run_steps World funcs w),
       map Call (invoked funcs w)).
Proof.
  intros Hs. induction funcs as [|f rest IH]; intros cursor w.
  - reflexivity.
  - simpl. unfold Base.bind, Base.call. rewrite Hs.
    destruct (Base.action f w) as [[u|e] w1]; [|reflexivity].
    simpl. rewrite IH. destruct rest; reflexivity.
Qed.

(** Whatever the parameters, a loop that ran a flow function and came to
    its end hands back the reset cursor. *)
Lemma flow_loop_resets_cursor (PAR : Params) (funcs : list (Base.step World)) :
  forall (f : Base.step World) (cursor c : Z * Z) (w : World),
    fst (fst (Base.flow_loop World check_stop_after PAR (f :: funcs) cursor w))
    = Ret c ->
    c = (0, -1).
Proof.
  induction funcs as [|g rest IH]; intros f cursor c w.
  - simpl. unfold Base.bind, Base.call.
    destruct (Base.action f w) as [[u|e] w1]; [|discriminate].
    destruct (Py.truthy (STOP_AFTER PAR)).
    + destruct (check_stop_after f w1) as [[[u'|e'] w2] tr2];
        simpl; congruence.
    + simpl. congruence.
  - intros H. change (Base.flow_loop World check_stop_after PAR
                        (f :: g :: rest) cursor)
      with (Base.bind (Base.call f)
              (fun _ => Base.bind
                 (if Py.truthy (STOP_AFTER PAR)
                  then check_stop_after f else Base.ret tt)
                 (fun _ => Base.flow_loop World check_stop_after PAR
                             (g :: rest) (0, -1)))) in H.
    unfold Base.bind at 1 in H. unfold Base.call in H.
    destruct (Base.action f w) as [[u|e] w1]; [|discriminate H].
    unfold Base.bind in H.
    destruct ((if Py.truthy (STOP_AFTER PAR)
               then check_stop_after f else Base.ret tt) w1)
      as [[[u'|e'] w2] tr2]; [|discriminate H].
    specialize (IH g (0, -1) c w2).
    destruct (Base.flow_loop World check_stop_after PAR (g :: rest) (0, -1) w2)
      as [[r3 w3] tr3].
    simpl in H, IH. auto.
Qed.

Lemma run_steps_raises (pre post : list (Base.step World))
      (f : Base.step World) (e : exn) :
  forall w w1 w2 : World,
    Base.run_steps World pre w = (Ret tt, w1) ->
    Base.action f w1 = (Raise e, w2) ->
    Base.run_steps World (pre ++ f :: post)%list w = (Raise e, w2)
    /\ invoked (pre ++ f :: post)%list w
       = (map Base.name pre ++ [Base.name f])%list.
Proof.
  induction pre as [|g pre IH]; intros w w1 w2 Hpre Hf.
  - simpl in Hpre. injection Hpre as <-. simpl. rewrite Hf. split; reflexivity.
  - simpl in Hpre |- *.
    destruct (Base.action g w) as [[u|e'] w'] eqn:Hg; [|discriminate Hpre].
    destruct (IH w' w1 w2 Hpre Hf) as [H1 H2].
    rewrite H1, H2. split; reflexivity.
Qed.

Lemma run_steps_all_return (funcs : list (Base.step World)) :
  (forall f w, In f funcs -> fst (Base.action f w) = Ret tt) ->
  forall w : World,
    fst (Base.run_steps World funcs w) = Ret tt
    /\ invoked funcs w = map Base.name funcs.
Proof.
  induction funcs as [|f rest IH]; intros Hall w.
  - split; reflexivity.
  - simpl. pose proof (Hall f w (or_introl eq_refl)) as Hf.
    destruct (Base.action f w) as [[u|e] w1]; [|discriminate Hf].
    destruct (IH (fun g w' Hg => Hall g w' (or_intror Hg)) w1) as [H1 H2].
    rewrite H1, H2. split; reflexivity.
Qed.

(** What no flow function changes, running them does not change. *)
Lemma run_steps_frame {C : Type} (obs : World -> C)
      (funcs : list (Base.step World)) :
  (forall f w, In f funcs -> obs (snd (Base.action f w)) = obs w) ->
  forall w : World, obs (snd (Base.run_steps World funcs w)) = obs w.
Proof.
  induction funcs as [|f rest IH]; intros Hall w.
  - reflexivity.
  - simpl. pose proof (Hall f w (or_introl eq_refl)) as Hf.
    destruct (Base.action f w) as [[u|e] w1]; simpl in Hf |- *.
    + rewrite IH; [exact Hf|]. intros g w' Hg. apply Hall. now right.
    + exact Hf.
Qed.

Lemma calls_of_app (a b : list event) :
  calls_of (a ++ b)%list = (calls_of a ++ calls_of b)%list.
Proof.
  induction a as [|ev a IH]; simpl; [reflexivity|].
  destruct ev; simpl; now rewrite IH.
Qed.

Lemma saves_of_app (a b : list event) :
  saves_of (a ++ b)%list = (saves_of a + saves_of b)%nat.
Proof.
  induction a as [|ev a IH]; simpl; [reflexivity|].
  destruct ev; simpl; now rewrite IH.
Qed.

Lemma calls_of_calls (l : list string) : calls_of (map Call l) = l.
Proof. induction l as [|n l IH]; simpl; [reflexivity|now rewrite IH]. Qed.

Lemma saves_of_calls (l : list string) : saves_of (map Call l) = O.
Proof. induction l as [|n l IH]; simpl; [reflexivity|exact IH]. Qed.

(** [main] with neither parameter set: the default cursor selects all of
    the flow but its last function. *)
Lemma main_unset (PAR : Params) (flow : list (Base.step World)) (w : World) :
  Py.truthy (RESUME_FROM PAR) = false ->
  Py.truthy (STOP_AFTER PAR) = false ->
  Base.main World wrap check_stop_after PAR flow false w
  = (match fst (Base.run_steps World (removelast flow) w) with
     | Ret _ => Ret None
     | Raise e => Raise e
     end,
     snd (Base.run_steps World (removelast flow) w),
     LogWarning Base.not_executable_warning
       :: LogInfo (Msg.mjr "BEGINNING EXAMPLE WORKFLOW")
       :: (map Call (invoked (removelast flow) w)
           ++ match fst (Base.run_steps World (removelast flow) w) with
              | Ret _ => [LogInfo (Msg.mjr "FINISHED EXAMPLE WORKFLOW")]
              | Raise _ => []
              end)%list).
Proof.
  intros Hr Hs. unfold Base.main, Base.bind at 1 2, Base.logger_warning,
    Base.emit.
  rewrite (resolve_unset PAR flow w Hr Hs).
  unfold Base.bind at 1. unfold Base.logger_info at 1. unfold Base.emit at 1.
  unfold Base.bind at 1. cbv [fst snd].
  rewrite slice_default, (flow_loop_unset PAR _ Hs).
  destruct (Base.run_steps World (removelast flow) w) as [[u|e] w1];
    cbv [fst snd].
  - unfold Base.bind, Base.logger_info, Base.emit, Base.ret.
    rewrite !app_nil_r. reflexivity.
  - rewrite !app_nil_r. reflexivity.
Qed.

(** [main] with a parameter set: the cursor is never resolved, so no flow
    function is called. *)
Lemma main_set (PAR : Params) (flow : list (Base.step World)) (w : World) :
  Py.truthy (RESUME_FROM PAR) || Py.truthy (STOP_AFTER PAR) = true ->
  exists (e : exn) (tr : list event),
    Base.main World wrap check_stop_after PAR flow false w
    = (Raise e, w, LogWarning Base.not_executable_warning :: tr)
    /\ calls_of tr = [] /\ saves_of tr = O
    /\ (flow <> [] -> e = AttributeError /\ tr = []).
Proof.
  intros Hset. unfold Base.main, Base.bind at 1 2, Base.logger_warning,
    Base.emit.
  destruct flow as [|f flow].
  - destruct (resolve_set_empty PAR w Hset) as [m Hm]. rewrite Hm.
    exists (SystemExit (-1)), [LogInfo m].
    do 3 (split; [reflexivity|]). intros Hne. now elim Hne.
  - rewrite resolve_set_nonempty by (assumption || discriminate).
    exists AttributeError, [].
    do 3 (split; [reflexivity|]). intros _. split; reflexivity.
Qed.

End ExecutorFacts.

(** ** The message formatter [cli] *)

Lemma append_nil_r_str (a : string) : a ++ EmptyString = a.
Proof. induction a as [|ch a IH]; simpl; [reflexivity|now rewrite IH]. Qed.

Ltac str_normalize :=
  cbn [append];
  repeat (rewrite append_assoc_str || rewrite append_nil_r_str);
  cbn [append].

(** C10. For a positive [wraplen], whatever the text, items, header and
    border (and whatever lines [textwrap.wrap] makes of the text),
    [msg.cli] returns a string that begins and ends with a newline; when a
    border is given the string is a newline, the border repeated [wraplen]
    times, a newline, the message body, a newline, the border repeated
    [wraplen] times again, and a newline: the body stands between two
    full-width border lines. *)
Theorem cli_enclosed_by_newlines_and_borders
        (wrap : string -> Z -> list string)
        (text : string) (items : option (list string)) (wraplen : Z)
        (header border : option string) (hchar : string) :
  0 < wraplen ->
  exists out : string,
    Msg.cli wrap text items wraplen header border hchar = Ret out
    /\ (exists inner, out = Msg.nl ++ inner ++ Msg.nl)
    /\ (forall b, border = Some b ->
        exists body,
          out = Msg.nl ++ Msg.str_mul b wraplen ++ Msg.nl
                  ++ body
                  ++ Msg.nl ++ Msg.str_mul b wraplen ++ Msg.nl).
Proof.
  intros Hw. unfold Msg.cli.
  destruct (wraplen <=? 0) eqn:Hle; [apply Z.leb_le in Hle; lia|].
  eexists. split; [reflexivity|].
  set (head := match header with
               | Some h =>
                   Msg.center (Msg.upper h) (Z.to_nat wraplen) ++ Msg.nl
                     ++ Msg.center (Msg.repeat_str hchar (String.length h))
                          (Z.to_nat wraplen) ++ Msg.nl
               | None => EmptyString
               end).
  set (listed := if Msg.items_given items
                 then Msg.nl ++ Msg.nl
                        ++ Msg.join Msg.nl
                             (match items with Some l => l | None => [] end)
                 else EmptyString).
  set (wrapped := Msg.join Msg.nl (wrap text wraplen)).
  split.
  - exists (match border with
            | Some b => Msg.str_mul b wraplen ++ Msg.nl
            | None => EmptyString
            end ++ head ++ wrapped ++ listed
              ++ match border with
                 | Some b => Msg.nl ++ Msg.str_mul b wraplen
                 | None => EmptyString
                 end).
    subst head listed.
    destruct border, header, (Msg.items_given items);
      str_normalize; reflexivity.
  - intros b ->. exists (head ++ wrapped ++ listed).
    subst head listed.
    destruct header, (Msg.items_given items); str_normalize; reflexivity.
Qed.

(** C10 at a bordered error message with a header and two items. *)
Lemma cli_enclosed_by_newlines_and_borders_witness :
  0 < 10 /\
  exists out : string,
    Msg.cli Scenario.wrap "hello" (Some ["a"; "b"]) 10
            (Some "err") (Some "=") "/" = Ret out
    /\ (exists inner, out = Msg.nl ++ inner ++ Msg.nl)
    /\ (forall b, Some "=" = Some b ->
        exists body,
          out = Msg.nl ++ Msg.str_mul b 10 ++ Msg.nl
                  ++ body
                  ++ Msg.nl ++ Msg.str_mul b 10 ++ Msg.nl).
Proof.
  split; [lia|].
  apply (cli_enclosed_by_newlines_and_borders
           Scenario.wrap "hello" (Some ["a"; "b"]) 10
           (Some "err") (Some "=") "/").
  lia.
Defined.

(** ** The flow executor [Base.main] *)

Lemma in_removelast {A : Type} (x : A) (l : list A) :
  In x (removelast l) -> In x l.
Proof.
  induction l as [|a l IH]; simpl; [tauto|].
  destruct l as [|b l]; [simpl; tauto|].
  intros [H|H]; [now left|right; now apply IH].
Qed.

Section MainProperties.

Variable World : Type.
Variable wrap : string -> Z -> list string.
Variable check_stop_after : Base.step World -> Base.M World unit.

(** C1 (the executor departs from the claim).  With [RESUME_FROM] and
    [STOP_AFTER] both unset, [check_stop_resume_cond] returns the cursor
    [(0, -1)] without any effect, and [main], whose flow functions all
    return, then calls the functions of [flow[0:-1]], that is all of the
    flow but its last function, each once and in flow order, and returns
    [None]: the last step of the flow is not executed. *)
Theorem default_cursor_drops_last_step
        (PAR : Params) (flow : list (Base.step World)) (w : World) :
  Py.truthy (RESUME_FROM PAR) = false ->
  Py.truthy (STOP_AFTER PAR) = false ->
  (forall f w', In f flow -> fst (Base.action f w') = Ret tt) ->
  Base.check_stop_resume_cond World wrap PAR flow w = (Ret (0, -1), w, [])
  /\ fst (fst (Base.main World wrap check_stop_after PAR flow false w))
     = Ret None
  /\ calls_of (snd (Base.main World wrap check_stop_after PAR flow false w))
     = map Base.name (removelast flow).
Proof.
  intros Hr Hs Hall. split; [now apply resolve_unset|].
  rewrite (main_unset World wrap check_stop_after PAR flow w Hr Hs).
  destruct (run_steps_all_return World (removelast flow)
              (fun f w' Hf => Hall f w' (in_removelast f flow Hf)) w)
    as [Hres Hinv].
  cbv [fst snd] in *. rewrite Hres, Hinv. split; [reflexivity|].
  cbn [calls_of]. rewrite calls_of_app, calls_of_calls.
  cbn [calls_of]. now rewrite app_nil_r.
Qed.

(** C2 (the executor departs from the claim).  When [RESUME_FROM] or
    [STOP_AFTER] is set, cursor resolution never returns a cursor, whether
    the value names a flow function or not: on the empty flow it ends in
    [sys.exit(-1)], the exit of the handlers for an unknown name; on every
    other flow it raises [AttributeError], which those handlers do not
    catch.  The world is left as it was, and [main] calls no flow
    function. *)
Theorem set_cursor_parameter_raises
        (PAR : Params) (flow : list (Base.step World)) (w : World) :
  Py.truthy (RESUME_FROM PAR) || Py.truthy (STOP_AFTER PAR) = true ->
  fst (fst (Base.check_stop_resume_cond World wrap PAR flow w))
  = Raise (match flow with [] => SystemExit (-1) | _ :: _ => AttributeError end)
  /\ snd (fst (Base.check_stop_resume_cond World wrap PAR flow w)) = w
  /\ calls_of (snd (Base.main World wrap check_stop_after PAR flow false w))
     = [].
Proof.
  intros Hset. split; [|split].
  - destruct flow as [|f flow].
    + destruct (resolve_set_empty World wrap PAR w Hset) as [m ->].
      reflexivity.
    + rewrite resolve_set_nonempty by (assumption || discriminate).
      reflexivity.
  - destruct flow as [|f flow].
    + destruct (resolve_set_empty World wrap PAR w Hset) as [m ->].
      reflexivity.
    + rewrite resolve_set_nonempty by (assumption || discriminate).
      reflexivity.
  - destruct (main_set World wrap check_stop_after PAR flow w Hset)
      as (e & tr & -> & Hc & _).
    exact Hc.
Qed.

(** C3 (the executor departs from the claim).  When [STOP_AFTER] is the
    name of a function of the flow, cursor resolution yields no stop
    index: it raises [AttributeError], [main] raises it in turn after its
    opening warning, and no flow function is called, the named one
    included. *)
Theorem stop_after_known_step_raises
        (PAR : Params) (flow : list (Base.step World)) (s : string)
        (w : World) :
  STOP_AFTER PAR = Some s ->
  s <> EmptyString ->
  In s (map Base.name flow) ->
  Base.check_stop_resume_cond World wrap PAR flow w
  = (Raise AttributeError, w, [])
  /\ Base.main World wrap check_stop_after PAR flow false w
     = (Raise AttributeError, w, [LogWarning Base.not_executable_warning]).
Proof.
  intros Hs Hne Hin.
  assert (Hflow : flow <> []) by (destruct flow; [elim Hin|discriminate]).
  assert (Hset : Py.truthy (RESUME_FROM PAR) || Py.truthy (STOP_AFTER PAR)
                 = true).
  { rewrite Hs. simpl. apply String.eqb_neq in Hne. rewrite Hne.
    apply orb_true_r. }
  split; [now apply resolve_set_nonempty|].
  destruct (main_set World wrap check_stop_after PAR flow w Hset)
    as (e & tr & -> & _ & _ & Hk).
  destruct (Hk Hflow) as [-> ->]. reflexivity.
Qed.

(** C4 (the executor departs from the claim).  When [RESUME_FROM] is the
    name of a function of the flow, then, with [STOP_AFTER] unset or not,
    cursor resolution yields no start index: it raises [AttributeError],
    [main] raises it in turn after its opening warning, and no flow
    function is called. *)
Theorem resume_from_known_step_raises
        (PAR : Params) (flow : list (Base.step World)) (s : string)
        (w : World) :
  RESUME_FROM PAR = Some s ->
  s <> EmptyString ->
  In s (map Base.name flow) ->
  Base.check_stop_resume_cond World wrap PAR flow w
  = (Raise AttributeError, w, [])
  /\ Base.main World wrap check_stop_after PAR flow false w
     = (Raise AttributeError, w, [LogWarning Base.not_executable_warning]).
Proof.
  intros Hr Hne Hin.
  assert (Hflow : flow <> []) by (destruct flow; [elim Hin|discriminate]).
  assert (Hset : Py.truthy (RESUME_FROM PAR) || Py.truthy (STOP_AFTER PAR)
                 = true).
  { rewrite Hr. simpl. apply String.eqb_neq in Hne. now rewrite Hne. }
  split; [now apply resolve_set_nonempty|].
  destruct (main_set World wrap check_stop_after PAR flow w Hset)
    as (e & tr & -> & _ & _ & Hk).
  destruct (Hk Hflow) as [-> ->]. reflexivity.
Qed.

(** C5, as amended.  [main] writes no checkpoint of its own: whatever the
    parameters, the flow and [return_flow], it never calls [save()], so
    any observation of the world that no flow function changes, the
    checkpoint on disk included, is the same after [main] as before it;
    a checkpoint is written only by a call of [Base.checkpoint], which
    calls [save()] once. *)
Theorem main_writes_no_checkpoint
        (PAR : Params) (flow : list (Base.step World)) (return_flow : bool)
        (w : World) (C : Type) (obs : World -> C) :
  (forall f w', In f flow -> obs (snd (Base.action f w')) = obs w') ->
  saves_of (snd (Base.main World wrap check_stop_after PAR flow return_flow w))
  = O
  /\ obs (snd (fst (Base.main World wrap check_stop_after PAR flow
                       return_flow w)))
     = obs w
  /\ (forall (save : World -> World) (w' : World),
        Base.checkpoint World save w' = (Ret tt, save w', [Save])).
Proof.
  intros Hframe. split; [|split]; [| |reflexivity].
  - destruct return_flow; [reflexivity|].
    destruct (Py.truthy (RESUME_FROM PAR) || Py.truthy (STOP_AFTER PAR))
      eqn:Hset.
    + destruct (main_set World wrap check_stop_after PAR flow w Hset)
        as (e & tr & -> & _ & Hsv & _).
      exact Hsv.
    + apply orb_false_elim in Hset. destruct Hset as [Hr Hs].
      rewrite (main_unset World wrap check_stop_after PAR flow w Hr Hs).
      cbv [snd]. cbn [saves_of]. rewrite saves_of_app, saves_of_calls.
      destruct (fst (Base.run_steps World (removelast flow) w));
        reflexivity.
  - destruct return_flow; [reflexivity|].
    destruct (Py.truthy (RESUME_FROM PAR) || Py.truthy (STOP_AFTER PAR))
      eqn:Hset.
    + destruct (main_set World wrap check_stop_after PAR flow w Hset)
        as (e & tr & -> & _).
      reflexivity.
    + apply orb_false_elim in Hset. destruct Hset as [Hr Hs].
      rewrite (main_unset World wrap check_stop_after PAR flow w Hr Hs).
      cbv [fst snd]. apply run_steps_frame.
      intros f w' Hf. apply Hframe. now apply in_removelast.
Qed.

(** C6.  When [main] runs the slice [pre ++ f :: post] of the flow, the
    functions of [pre] return and [f] raises [e], then [main] raises that
    same [e] to its caller; the flow functions it called are those of
    [pre] followed by [f], each once, so [f] is not called again and no
    function of [post] is called; [main] wrote no checkpoint, and the
    world it leaves is the one [f] left when it raised: whenever the
    checkpoint was not changed by [f] itself, it is exactly what it was
    before [f] ran. *)
Theorem main_step_raises
        (PAR : Params) (flow pre post : list (Base.step World))
        (f : Base.step World) (e : exn) (start stop : Z)
        (w w1 w2 : World) :
  fst (fst (Base.check_stop_resume_cond World wrap PAR flow w))
  = Ret (start, stop) ->
  Py.slice flow start stop = (pre ++ f :: post)%list ->
  Base.run_steps World pre w = (Ret tt, w1) ->
  Base.action f w1 = (Raise e, w2) ->
  exists tr : list event,
    Base.main World wrap check_stop_after PAR flow false w = (Raise e, w2, tr)
    /\ calls_of tr = (map Base.name pre ++ [Base.name f])%list
    /\ saves_of tr = O
    /\ (forall (C : Type) (checkpoint_of : World -> C),
          checkpoint_of w2 = checkpoint_of w1 ->
          checkpoint_of
            (snd (fst (Base.main World wrap check_stop_after PAR flow
                         false w)))
          = checkpoint_of w1).
Proof.
  intros Hcur Hslice Hpre Hf.
  destruct (resolve_returns World wrap PAR flow w (start, stop) Hcur)
    as (Hr & Hs & Hc).
  injection Hc as -> ->. rewrite slice_default in Hslice.
  destruct (run_steps_raises World pre post f e w w1 w2 Hpre Hf)
    as [Hrun Hinv].
  rewrite (main_unset World wrap check_stop_after PAR flow w Hr Hs).
  rewrite Hslice, Hrun, Hinv. cbv [fst snd].
  eexists. split; [reflexivity|]. split; [|split].
  - cbn [calls_of]. rewrite calls_of_app, calls_of_calls.
    cbn [calls_of]. now rewrite app_nil_r.
  - cbn [saves_of]. rewrite saves_of_app, saves_of_calls. reflexivity.
  - intros C checkpoint_of Hsame. exact Hsame.
Qed.

(** C8 (the executor departs from the claim).  For a flow of two steps
    with [RESUME_FROM] set to the name of the second, the first pass does
    not execute the second step: [main] raises [AttributeError] before any
    flow function is called.  A loop that has run a flow function leaves
    the cursor [(0, -1)], and that cursor selects [flow[0:-1]]: of the two
    steps only the first, not the whole flow. *)
Theorem resume_second_step_of_two
        (PAR : Params) (s1 s2 : Base.step World) (w : World) :
  RESUME_FROM PAR = Some (Base.name s2) ->
  Base.name s2 <> EmptyString ->
  Base.main World wrap check_stop_after PAR [s1; s2] false w
  = (Raise AttributeError, w, [LogWarning Base.not_executable_warning])
  /\ (forall (PAR' : Params) (funcs : list (Base.step World))
             (g : Base.step World) (cursor c : Z * Z) (w' : World),
        fst (fst (Base.flow_loop World check_stop_after PAR' (g :: funcs)
                    cursor w')) = Ret c ->
        c = (0, -1))
  /\ Py.slice [s1; s2] 0 (-1) = [s1].
Proof.
  intros Hr Hne. split; [|split].
  - assert (Hset : Py.truthy (RESUME_FROM PAR) || Py.truthy (STOP_AFTER PAR)
                   = true).
    { rewrite Hr. simpl. apply String.eqb_neq in Hne. now rewrite Hne. }
    destruct (main_set World wrap check_stop_after PAR [s1; s2] w Hset)
      as (e & tr & -> & _ & _ & Hk).
    destruct (Hk ltac:(discriminate)) as [-> ->]. reflexivity.
  - intros PAR' funcs g cursor c w'.
    apply flow_loop_resets_cursor.
  - reflexivity.
Qed.

(** C9.  With [return_flow=True], [main] returns the flow it was given,
    whatever the parameters: the world is left as it was, no flow function
    is called, no checkpoint is written and the cursor is not resolved;
    the only event is the logger warning that opens [main]. *)
Theorem main_return_flow_returns_flow
        (PAR : Params) (flow : list (Base.step World)) (w : World) :
  Base.main World wrap check_stop_after PAR flow true w
  = (Ret (Some flow), w, [LogWarning Base.not_executable_warning]).
Proof. reflexivity. Qed.

End MainProperties.

(** ** [Migration.main] *)

(** C7 (the workflow departs from the claim).  [Migration.main] calls
    [self.main], which is [Migration.main] itself: whatever recursion
    limit the interpreter sets, the call ends in [RecursionError], with
    the world as it was and without a single event, so that none of the
    four flow functions is called. *)
Theorem migration_main_recursion
        (World : Type)
        (evaluate_initial_misfit evaluate_gradient process_kernels
           scale_gradient : World -> res unit * World)
        (frames : nat) (flow : option (list (Base.step World)))
        (return_flow : bool) (w : World) :
  Migration.main World evaluate_initial_misfit evaluate_gradient
                 process_kernels scale_gradient frames flow return_flow w
  = (Raise RecursionError, w, []).
Proof.
  revert flow. induction frames as [|k IH]; intros flow.
  - reflexivity.
  - simpl. unfold Base.bind. rewrite IH. reflexivity.
Qed.

(** ** The properties at concrete flows *)

(** C1 at the flow [A, B, C] with both parameters unset: [A] and [B] are
    called, [C] is not. *)
Lemma default_cursor_drops_last_step_witness :
  Base.check_stop_resume_cond Scenario.World Scenario.wrap Scenario.unset
    Scenario.flow_ABC []
  = (Ret (0, -1), [], [])
  /\ fst (fst (Scenario.main Scenario.unset Scenario.flow_ABC false []))
     = Ret None
  /\ calls_of (snd (Scenario.main Scenario.unset Scenario.flow_ABC false []))
     = ["A"; "B"].
Proof.
  apply (default_cursor_drops_last_step Scenario.World Scenario.wrap
           Scenario.check_stop_after Scenario.unset Scenario.flow_ABC []).
  - reflexivity.
  - reflexivity.
  - intros f w' [<-|[<-|[<-|[]]]]; reflexivity.
Defined.

(** C2 at the flow [A, B, C] with [RESUME_FROM = X], which names no step:
    the failure is [AttributeError], not the exit of the handler. *)
Lemma set_cursor_parameter_raises_witness :
  fst (fst (Base.check_stop_resume_cond Scenario.World Scenario.wrap
              (Scenario.resume_from "X") Scenario.flow_ABC []))
  = Raise AttributeError
  /\ snd (fst (Base.check_stop_resume_cond Scenario.World Scenario.wrap
                 (Scenario.resume_from "X") Scenario.flow_ABC []))
     = []
  /\ calls_of (snd (Scenario.main (Scenario.resume_from "X")
                      Scenario.flow_ABC false []))
     = [].
Proof.
  apply (set_cursor_parameter_raises Scenario.World Scenario.wrap
           Scenario.check_stop_after (Scenario.resume_from "X")
           Scenario.flow_ABC []).
  reflexivity.
Defined.

(** C3 at the flow [A, B, C] with [STOP_AFTER = B]. *)
Lemma stop_after_known_step_raises_witness :
  Base.check_stop_resume_cond Scenario.World Scenario.wrap
    (Scenario.stop_after "B") Scenario.flow_ABC []
  = (Raise AttributeError, [], [])
  /\ Scenario.main (Scenario.stop_after "B") Scenario.flow_ABC false []
     = (Raise AttributeError, [], [LogWarning Base.not_executable_warning]).
Proof.
  apply (stop_after_known_step_raises Scenario.World Scenario.wrap
           Scenario.check_stop_after (Scenario.stop_after "B")
           Scenario.flow_ABC "B" []).
  - reflexivity.
  - discriminate.
  - simpl. right. left. reflexivity.
Defined.

(** C4 at the flow [A, B, C] with [RESUME_FROM = B]. *)
Lemma resume_from_known_step_raises_witness :
  Base.check_stop_resume_cond Scenario.World Scenario.wrap
    (Scenario.resume_from "B") Scenario.flow_ABC []
  = (Raise AttributeError, [], [])
  /\ Scenario.main (Scenario.resume_from "B") Scenario.flow_ABC false []
     = (Raise AttributeError, [], [LogWarning Base.not_executable_warning]).
Proof.
  apply (resume_from_known_step_raises Scenario.World Scenario.wrap
           Scenario.check_stop_after (Scenario.resume_from "B")
           Scenario.flow_ABC "B" []).
  - reflexivity.
  - discriminate.
  - simpl. right. left. reflexivity.
Defined.

(** C5 as stated fails on the flow [A, B, C] run with both parameters
    unset on a first run: [main] succeeds after calling [A] and [B], yet
    no call is followed by a checkpoint, [save()] was never called and no
    checkpoint record exists afterwards. *)
Lemma checkpoint_after_each_step_counterexample :
  fst (fst (Scenario.main Scenario.unset Scenario.flow_ABC false []))
  = Ret None
  /\ calls_of (snd (Scenario.main Scenario.unset Scenario.flow_ABC false []))
     = ["A"; "B"]
  /\ checkpointed_after_each_call
       (snd (Scenario.main Scenario.unset Scenario.flow_ABC false []))
     = false
  /\ saves_of (snd (Scenario.main Scenario.unset Scenario.flow_ABC false []))
     = O
  /\ snd (fst (Scenario.main Scenario.unset Scenario.flow_ABC false []))
     = [].
Proof. vm_compute. repeat split. Qed.

(** C5, as amended, at the flow [A, B, C] on a first run: the checkpoint
    records are observed as they are. *)
Lemma main_writes_no_checkpoint_witness :
  saves_of (snd (Scenario.main Scenario.unset Scenario.flow_ABC false []))
  = O
  /\ snd (fst (Scenario.main Scenario.unset Scenario.flow_ABC false []))
     = []
  /\ (forall (save : Scenario.World -> Scenario.World) (w' : Scenario.World),
        Base.checkpoint Scenario.World save w' = (Ret tt, save w', [Save])).
Proof.
  apply (main_writes_no_checkpoint Scenario.World Scenario.wrap
           Scenario.check_stop_after Scenario.unset Scenario.flow_ABC false
           [] Scenario.World (fun w => w)).
  intros f w' [<-|[<-|[<-|[]]]]; reflexivity.
Defined.

(** C6 at the flow [A, B, C] whose [A] raises, on a first run: [main]
    raises what [A] raised, only [A] was called, and the checkpoint is
    still absent. *)
Lemma main_step_raises_witness :
  exists tr : list event,
    Scenario.main Scenario.unset Scenario.flow_A_raises false []
    = (Raise (Exception "A failed"), [], tr)
    /\ calls_of tr = ["A"]
    /\ saves_of tr = O
    /\ (forall (C : Type) (checkpoint_of : Scenario.World -> C),
          checkpoint_of [] = checkpoint_of [] ->
          checkpoint_of
            (snd (fst (Scenario.main Scenario.unset Scenario.flow_A_raises
                         false [])))
          = checkpoint_of []).
Proof.
  apply (main_step_raises Scenario.World Scenario.wrap
           Scenario.check_stop_after Scenario.unset Scenario.flow_A_raises
           [] [Scenario.returns "B"] (Scenario.raises "A")
           (Exception "A failed") 0 (-1) [] [] []).
  - reflexivity.
  - reflexivity.
  - reflexivity.
  - reflexivity.
Defined.

(** C8 at a flow of two steps with [RESUME_FROM] naming the second. *)
Lemma resume_second_step_of_two_witness :
  Scenario.main (Scenario.resume_from "step2")
    [Scenario.returns "step1"; Scenario.returns "step2"] false []
  = (Raise AttributeError, [], [LogWarning Base.not_executable_warning])
  /\ (forall (PAR' : Params) (funcs : list (Base.step Scenario.World))
             (g : Base.step Scenario.World) (cursor c : Z * Z)
             (w' : Scenario.World),
        fst (fst (Base.flow_loop Scenario.World Scenario.check_stop_after
                    PAR' (g :: funcs) cursor w')) = Ret c ->
        c = (0, -1))
  /\ Py.slice [Scenario.returns "step1"; Scenario.returns "step2"] 0 (-1)
     = [Scenario.returns "step1"].
Proof.
  apply (resume_second_step_of_two Scenario.World Scenario.wrap
           Scenario.check_stop_after (Scenario.resume_from "step2")
           (Scenario.returns "step1") (Scenario.returns "step2") []).
  - reflexivity.
  - discriminate.
Defined.

(** * Further properties of [tools/msg.py] *)

Lemma length_append_str (a b : string) :
  String.length (a ++ b) = (String.length a + String.length b)%nat.
Proof. induction a as [|ch a IH]; simpl; [reflexivity|now rewrite IH]. Qed.

Lemma length_repeat_str (s : string) (n : nat) :
  String.length (Msg.repeat_str s n) = (n * String.length s)%nat.
Proof.
  induction n as [|n IH]; simpl; [reflexivity|].
  now rewrite length_append_str, IH.
Qed.


Lemma half_padding (pad : nat) :
  (Nat.div pad 2 <= pad - Nat.div pad 2 <= Nat.div pad 2 + 1)%nat
  /\ (Nat.div pad 2 + (pad - Nat.div pad 2) = pad)%nat.
Proof.
  pose proof (Nat.div_mod_eq pad 2) as H.
  pose proof (Nat.mod_upper_bound pad 2 ltac:(discriminate)) as Hm.
  lia.
Qed.

(** X1.  A message of at most 80 characters is set by [mjr] and by [mnr]
    in the middle of a line of exactly 80 columns, between two rules of 80
    characters: the blanks before it and after it add up with it to 80,
    and there is the same number on both sides or one more after it. *)
Theorem mjr_mnr_centre_short_message (val : string) :
  (String.length val <= 80)%nat ->
  exists l r : nat,
    (l + String.length val + r = 80)%nat
    /\ (l <= r <= l + 1)%nat
    /\ Msg.mjr val
       = Msg.nl ++ Msg.repeat_str "=" 80 ++ Msg.nl
           ++ (Msg.repeat_str " " l ++ val ++ Msg.repeat_str " " r) ++ Msg.nl
           ++ Msg.repeat_str "=" 80 ++ Msg.nl
    /\ Msg.mnr val
       = Msg.nl ++ Msg.repeat_str "+" 80 ++ Msg.nl
           ++ (Msg.repeat_str " " l ++ val ++ Msg.repeat_str " " r) ++ Msg.nl
           ++ Msg.repeat_str "+" 80 ++ Msg.nl
    /\ String.length (Msg.mjr val) = 244%nat
    /\ String.length (Msg.mnr val) = 244%nat.
Proof.
  intros Hlen.
  destruct (half_padding (80 - String.length val)) as [Hbal Hsum].
  exists (Nat.div (80 - String.length val) 2),
    ((80 - String.length val) - Nat.div (80 - String.length val) 2)%nat.
  split; [lia|]. split; [exact Hbal|].
  split; [reflexivity|]. split; [reflexivity|].
  unfold Msg.mjr, Msg.mnr, Msg.center.
  rewrite !length_append_str, !length_repeat_str. simpl String.length. lia.
Qed.

Lemma mjr_mnr_centre_short_message_witness :
  (String.length "HI" <= 80)%nat /\
  exists l r : nat,
    (l + String.length "HI" + r = 80)%nat
    /\ (l <= r <= l + 1)%nat
    /\ Msg.mjr "HI"
       = Msg.nl ++ Msg.repeat_str "=" 80 ++ Msg.nl
           ++ (Msg.repeat_str " " l ++ "HI" ++ Msg.repeat_str " " r) ++ Msg.nl
           ++ Msg.repeat_str "=" 80 ++ Msg.nl
    /\ Msg.mnr "HI"
       = Msg.nl ++ Msg.repeat_str "+" 80 ++ Msg.nl
           ++ (Msg.repeat_str " " l ++ "HI" ++ Msg.repeat_str " " r) ++ Msg.nl
           ++ Msg.repeat_str "+" 80 ++ Msg.nl
    /\ String.length (Msg.mjr "HI") = 244%nat
    /\ String.length (Msg.mnr "HI") = 244%nat.
Proof.
  split; [simpl; lia|].
  apply (mjr_mnr_centre_short_message "HI"). simpl; lia.
Defined.

(** X2.  A message of 80 characters or more is neither padded nor cut by
    [mjr] and [mnr]: it stands whole on its line between the two rules,
    which stay 80 characters long. *)
Theorem mjr_mnr_keep_long_message (val : string) :
  (80 <= String.length val)%nat ->
  Msg.mjr val
  = Msg.nl ++ Msg.repeat_str "=" 80 ++ Msg.nl ++ val ++ Msg.nl
      ++ Msg.repeat_str "=" 80 ++ Msg.nl
  /\ Msg.mnr val
     = Msg.nl ++ Msg.repeat_str "+" 80 ++ Msg.nl ++ val ++ Msg.nl
         ++ Msg.repeat_str "+" 80 ++ Msg.nl.
Proof.
  intros Hlen. unfold Msg.mjr, Msg.mnr, Msg.center.
  replace (80 - String.length val)%nat with O by lia.
  change (Nat.div 0 2) with O. change (0 - 0)%nat with O.
  change (Msg.repeat_str " " 0) with EmptyString.
  cbn [append]. rewrite append_nil_r_str. split; reflexivity.
Qed.

Lemma mjr_mnr_keep_long_message_witness :
  (80 <= String.length (Msg.repeat_str "ab" 45))%nat
  /\ Msg.mjr (Msg.repeat_str "ab" 45)
     = Msg.nl ++ Msg.repeat_str "=" 80 ++ Msg.nl ++ Msg.repeat_str "ab" 45
         ++ Msg.nl ++ Msg.repeat_str "=" 80 ++ Msg.nl
  /\ Msg.mnr (Msg.repeat_str "ab" 45)
     = Msg.nl ++ Msg.repeat_str "+" 80 ++ Msg.nl ++ Msg.repeat_str "ab" 45
         ++ Msg.nl ++ Msg.repeat_str "+" 80 ++ Msg.nl.
Proof.
  split; [rewrite length_repeat_str; simpl; lia|].
  apply (mjr_mnr_keep_long_message (Msg.repeat_str "ab" 45)).
  rewrite length_repeat_str; simpl; lia.
Defined.



(** ** [split_cls] and the messages built on it *)

Lemma split_no_sep (s : string) (sep : ascii) :
  Msg.has_char sep s = false -> Msg.split s sep = [s].
Proof.
  induction s as [|ch s IH]; simpl; [reflexivity|].
  destruct (Ascii.eqb ch sep); [discriminate|].
  simpl. intros H. now rewrite IH.
Qed.

Lemma split_app_sep (p r : string) (sep : ascii) :
  Msg.has_char sep p = false ->
  Msg.split (p ++ String sep r) sep = p :: Msg.split r sep.
Proof.
  induction p as [|ch p IH]; simpl.
  - intros _. now rewrite Ascii.eqb_refl.
  - destruct (Ascii.eqb ch sep); [discriminate|].
    simpl. intros H. now rewrite IH.
Qed.

Lemma length_split (s : string) (sep : ascii) :
  List.length (Msg.split s sep) = S (Msg.count_char sep s).
Proof.
  induction s as [|ch s IH]; simpl; [reflexivity|].
  destruct (Ascii.eqb ch sep); simpl; [now rewrite IH|].
  destruct (Msg.split s sep); simpl in *; [discriminate|exact IH].
Qed.

Lemma has_char_app (c : ascii) (a b : string) :
  Msg.has_char c (a ++ b) = Msg.has_char c a || Msg.has_char c b.
Proof.
  induction a as [|ch a IH]; simpl; [reflexivity|].
  now rewrite IH, orb_assoc.
Qed.

Lemma split_class_repr (name : string) :
  Msg.has_char "'" name = false ->
  Msg.split (Msg.class_repr name) "'" = ["<class "; name; ">"].
Proof.
  intros Hq. unfold Msg.class_repr.
  change ("<class '" ++ name ++ "'>")
    with ("<class " ++ String "'" (name ++ String "'" ">")).
  rewrite split_app_sep by reflexivity.
  rewrite split_app_sep by exact Hq.
  reflexivity.
Qed.

(** X4.  For a class whose dotted name has the four components
    [sf3.module.fid.clsname] (none of them with a dot or a quote),
    [split_cls] returns the second and the fourth, and [whoami], [check]
    and [setup] return [module.clsname] between [prepend] and [append],
    respectively after their fixed opening words. *)
Theorem split_cls_four_components (sf3 module fid clsname : string)
        (append prepend : string) :
  Msg.has_char "." (sf3 ++ module ++ fid ++ clsname) = false ->
  Msg.has_char "'" (sf3 ++ module ++ fid ++ clsname) = false ->
  let cls := Msg.class_repr
               (sf3 ++ "." ++ module ++ "." ++ fid ++ "." ++ clsname) in
  Msg.split_cls cls = Ret (module, clsname)
  /\ Msg.whoami cls append prepend
     = Ret (prepend ++ module ++ "." ++ clsname ++ append)
  /\ Msg.check cls = Ret ("check paths/pars module: " ++ module ++ "."
                            ++ clsname)
  /\ Msg.setup cls = Ret ("setting up module: " ++ module ++ "." ++ clsname).
Proof.
  intros Hdot Hquote cls.
  rewrite !has_char_app in Hdot, Hquote.
  repeat (apply orb_false_elim in Hdot; destruct Hdot as [? Hdot]).
  repeat (apply orb_false_elim in Hquote; destruct Hquote as [? Hquote]).
  assert (Hsplit : Msg.split_cls cls = Ret (module, clsname)).
  { unfold Msg.split_cls, cls. rewrite split_class_repr.
    - cbn [String.append]. rewrite !split_app_sep by assumption.
      rewrite split_no_sep by assumption. reflexivity.
    - cbn [String.append].
      repeat (rewrite has_char_app; cbn [Msg.has_char]).
      change (Ascii.eqb "." "'") with false.
      repeat match goal with
             | H : Msg.has_char "'" _ = false |- _ => rewrite H; clear H
             end.
      reflexivity. }
  unfold Msg.whoami, Msg.check, Msg.setup. rewrite Hsplit.
  repeat split; reflexivity.
Qed.

Lemma split_cls_four_components_witness :
  let cls := Msg.class_repr
               ("seisflows3" ++ "." ++ "preprocess" ++ "." ++ "default"
                  ++ "." ++ "Default") in
  Msg.split_cls cls = Ret ("preprocess", "Default")
  /\ Msg.whoami cls "]" "["
     = Ret ("[" ++ "preprocess" ++ "." ++ "Default" ++ "]")
  /\ Msg.check cls = Ret ("check paths/pars module: " ++ "preprocess" ++ "."
                            ++ "Default")
  /\ Msg.setup cls = Ret ("setting up module: " ++ "preprocess" ++ "."
                            ++ "Default").
Proof.
  apply (split_cls_four_components "seisflows3" "preprocess" "default"
           "Default" "]" "[").
  - reflexivity.
  - reflexivity.
Defined.

(** X5.  For a class whose dotted name holds no quote, [split_cls]
    returns if and only if the name has exactly three dots: with fewer or
    more components than four (a class of a package one level higher or
    lower, a nested class, a builtin) the unpacking raises [ValueError],
    and so do [whoami], [check] and [setup]. *)
Theorem split_cls_needs_four_components (name : string) :
  Msg.has_char "'" name = false ->
  ((exists r, Msg.split_cls (Msg.class_repr name) = Ret r)
   <-> Msg.count_char "." name = 3%nat)
  /\ (Msg.count_char "." name <> 3%nat ->
      Msg.split_cls (Msg.class_repr name) = Raise ValueError
      /\ Msg.check (Msg.class_repr name) = Raise ValueError
      /\ Msg.setup (Msg.class_repr name) = Raise ValueError
      /\ forall append prepend,
           Msg.whoami (Msg.class_repr name) append prepend
           = Raise ValueError).
Proof.
  intros Hq.
  assert (Hcases : (Msg.count_char "." name = 3%nat
                    /\ exists r, Msg.split_cls (Msg.class_repr name) = Ret r)
                   \/ (Msg.count_char "." name <> 3%nat
                       /\ Msg.split_cls (Msg.class_repr name)
                          = Raise ValueError)).
  { unfold Msg.split_cls. rewrite (split_class_repr name Hq).
    pose proof (length_split name ".") as Hlen.
    destruct (Msg.split name ".") as [|a [|b [|c [|d [|e l]]]]];
      simpl in Hlen;
      try (right; split; [lia|reflexivity]).
    left. split; [lia|]. eexists. reflexivity. }
  split; [split|].
  - intros [r Hr]. destruct Hcases as [[H _]|[_ H]]; [exact H|].
    rewrite H in Hr. discriminate Hr.
  - intros H3. destruct Hcases as [[_ H]|[H _]]; [exact H|contradiction].
  - intros Hn. destruct Hcases as [[H _]|[_ H]]; [contradiction|].
    unfold Msg.check, Msg.setup, Msg.whoami. rewrite H.
    repeat split; reflexivity.
Qed.

Lemma split_cls_needs_four_components_witness :
  ((exists r, Msg.split_cls (Msg.class_repr "seisflows3.workflow.Base")
              = Ret r)
   <-> Msg.count_char "." "seisflows3.workflow.Base" = 3%nat)
  /\ (Msg.count_char "." "seisflows3.workflow.Base" <> 3%nat ->
      Msg.split_cls (Msg.class_repr "seisflows3.workflow.Base")
      = Raise ValueError
      /\ Msg.check (Msg.class_repr "seisflows3.workflow.Base")
         = Raise ValueError
      /\ Msg.setup (Msg.class_repr "seisflows3.workflow.Base")
         = Raise ValueError
      /\ forall append prepend,
           Msg.whoami (Msg.class_repr "seisflows3.workflow.Base")
                      append prepend
           = Raise ValueError).
Proof.
  apply (split_cls_needs_four_components "seisflows3.workflow.Base").
  reflexivity.
Defined.

(** * Further properties of [workflow/base.py] *)

Section ExecutorEdges.

Variable World : Type.
Variable wrap : string -> Z -> list string.

Lemma main_resolution_raises
      (check_stop_after : Base.step World -> Base.M World unit)
      (PAR : Params) (flow : list (Base.step World)) (w w' : World)
      (e : exn) (tr : list event) :
  Base.check_stop_resume_cond World wrap PAR flow w = (Raise e, w', tr) ->
  Base.main World wrap check_stop_after PAR flow false w
  = (Raise e, w', LogWarning Base.not_executable_warning :: tr).
Proof.
  intros H. unfold Base.main, Base.bind at 1 2, Base.logger_warning,
    Base.emit.
  rewrite H. reflexivity.
Qed.

Lemma invoked_prefix (funcs : list (Base.step World)) :
  forall w : World,
    exists rest, map Base.name funcs = (invoked funcs w ++ rest)%list.
Proof.
  induction funcs as [|f funcs IH]; intros w.
  - exists []. reflexivity.
  - simpl. destruct (Base.action f w) as [[u|e] w1].
    + destruct (IH w1) as [rest Hrest]. exists rest. now rewrite Hrest.
    + exists (map Base.name funcs). reflexivity.
Qed.

(** X6.  [main] never calls [self.check_stop_after], the method that
    [Base] does not define: whatever the parameters, the flow and the
    world, two executors that differ only in that method give the same
    result, leave the same world and emit the same events. *)
Theorem main_never_calls_check_stop_after
        (check_stop_after check_stop_after' :
           Base.step World -> Base.M World unit)
        (PAR : Params) (flow : list (Base.step World)) (return_flow : bool)
        (w : World) :
  Base.main World wrap check_stop_after PAR flow return_flow w
  = Base.main World wrap check_stop_after' PAR flow return_flow w.
Proof.
  destruct return_flow; [reflexivity|].
  destruct (Py.truthy (RESUME_FROM PAR) || Py.truthy (STOP_AFTER PAR))
    eqn:Hset.
  - destruct (Base.check_stop_resume_cond World wrap PAR flow w)
      as [[[c|e] w'] tr] eqn:Hres.
    + destruct (resolve_returns World wrap PAR flow w c) as (Hr & Hs & _).
      { now rewrite Hres. }
      rewrite Hr, Hs in Hset. discriminate Hset.
    + rewrite (main_resolution_raises check_stop_after PAR flow w w' e tr Hres).
      rewrite (main_resolution_raises check_stop_after' PAR flow w w' e tr
                 Hres).
      reflexivity.
  - apply orb_false_elim in Hset. destruct Hset as [Hr Hs].
    rewrite !main_unset by assumption. reflexivity.
Qed.

(** X7.  Whatever the parameters, the flow functions and what they do,
    the names of the functions [main] calls, in call order, are an initial
    part of the names of [flow[0:-1]]: [main] calls the flow functions in
    flow order, none twice and none before all its predecessors, and never
    the last one. *)
Theorem main_calls_initial_part_of_flow
        (check_stop_after : Base.step World -> Base.M World unit)
        (PAR : Params) (flow : list (Base.step World)) (return_flow : bool)
        (w : World) :
  exists rest : list string,
    map Base.name (removelast flow)
    = (calls_of (snd (Base.main World wrap check_stop_after PAR flow
                        return_flow w)) ++ rest)%list.
Proof.
  destruct return_flow; [eexists; reflexivity|].
  destruct (Py.truthy (RESUME_FROM PAR) || Py.truthy (STOP_AFTER PAR))
    eqn:Hset.
  - destruct (main_set World wrap check_stop_after PAR flow w Hset)
      as (e & tr & -> & Hc & _).
    cbv [snd]. cbn [calls_of]. rewrite Hc. eexists. reflexivity.
  - apply orb_false_elim in Hset. destruct Hset as [Hr Hs].
    rewrite (main_unset World wrap check_stop_after PAR flow w Hr Hs).
    cbv [snd]. cbn [calls_of]. rewrite calls_of_app, calls_of_calls.
    destruct (invoked_prefix (removelast flow) w) as [rest Hrest].
    exists rest. rewrite Hrest. f_equal.
    destruct (fst (Base.run_steps World (removelast flow) w));
      cbn [calls_of]; now rewrite app_nil_r.
Qed.

(** X8.  [check_stop_resume_cond] returns a cursor if and only if neither
    [PAR.RESUME_FROM] nor [PAR.STOP_AFTER] is set ([None] and the empty
    string count as unset); the cursor is then [(0, -1)], whatever the
    flow, and resolving it changes nothing and logs nothing. *)
Theorem cursor_returned_iff_unset
        (PAR : Params) (flow : list (Base.step World)) (w : World) :
  ((exists cursor,
       fst (fst (Base.check_stop_resume_cond World wrap PAR flow w))
       = Ret cursor)
   <-> Py.truthy (RESUME_FROM PAR) = false
       /\ Py.truthy (STOP_AFTER PAR) = false)
  /\ (forall cursor,
        fst (fst (Base.check_stop_resume_cond World wrap PAR flow w))
        = Ret cursor ->
        Base.check_stop_resume_cond World wrap PAR flow w
        = (Ret (0, -1), w, [])).
Proof.
  split; [split|].
  - intros [cursor H].
    destruct (resolve_returns World wrap PAR flow w cursor H) as (Hr & Hs & _).
    now split.
  - intros [Hr Hs]. exists (0, -1).
    now rewrite (resolve_unset World wrap PAR flow w Hr Hs).
  - intros cursor H.
    destruct (resolve_returns World wrap PAR flow w cursor H) as (Hr & Hs & _).
    now apply resolve_unset.
Qed.

(** X9.  On the empty flow a set parameter is reported as unknown: cursor
    resolution logs one message, the [cli] text with the header [error]
    and the border [=] that names the value and the parameter, and ends in
    [sys.exit(-1)], leaving the world as it was.  When both parameters are
    set the message is about [RESUME_FROM], which is looked at first, and
    [STOP_AFTER] is not reported. *)
Theorem empty_flow_reports_unknown_name (PAR : Params) (w : World) :
  Py.truthy (RESUME_FROM PAR) || Py.truthy (STOP_AFTER PAR) = true ->
  exists message : string,
    Msg.cli wrap
      (if Py.truthy (RESUME_FROM PAR)
       then Base.unknown_name_message (Py.fmt (RESUME_FROM PAR)) "RESUME_FROM"
       else Base.unknown_name_message (Py.fmt (STOP_AFTER PAR)) "STOP_AFTER")
      None 80 (Some "error") (Some "=") "/"
    = Ret message
    /\ Base.check_stop_resume_cond World wrap PAR [] w
       = (Raise (SystemExit (-1)), w, [LogInfo message]).
Proof.
  intros Hset.
  unfold Base.check_stop_resume_cond, Base.bind, Base.lift,
    Base.try_except_ValueError.
  destruct (Py.truthy (RESUME_FROM PAR)) eqn:Hr.
  - eexists. split.
    + unfold Msg.cli. change (80 <=? 0) with false. cbv iota. reflexivity.
    + cbn -[Msg.cli Base.unknown_name_message].
      unfold Msg.cli. change (80 <=? 0) with false. cbv iota. reflexivity.
  - simpl in Hset. rewrite Hset. eexists. split.
    + unfold Msg.cli. change (80 <=? 0) with false. cbv iota. reflexivity.
    + cbn -[Msg.cli Base.unknown_name_message].
      unfold Msg.cli. change (80 <=? 0) with false. cbv iota. reflexivity.
Qed.

End ExecutorEdges.

Lemma empty_flow_reports_unknown_name_witness :
  exists message : string,
    Msg.cli Scenario.wrap
      (Base.unknown_name_message "evaluate_gradient" "RESUME_FROM")
      None 80 (Some "error") (Some "=") "/"
    = Ret message
    /\ Base.check_stop_resume_cond Scenario.World Scenario.wrap
         (mkParams (Some "evaluate_gradient") (Some "finalize")) [] []
       = (Raise (SystemExit (-1)), [], [LogInfo message]).
Proof.
  apply (empty_flow_reports_unknown_name Scenario.World Scenario.wrap
           (mkParams (Some "evaluate_gradient") (Some "finalize")) []).
  reflexivity.
Defined.
